(** * mtypes.h: the MARSHAL_TYPE table of the CoreCLR interop layer

    [src/coreclr/vm/mtypes.h] is an X-macro table.  Each line
    [DEFINE_MARSHALER_TYPE(mtype, mclass)] binds a marshaler id to a
    marshaler class; some lines sit inside [#ifdef FLAG ... #endif]
    blocks.  A file that includes the header first defines
    [DEFINE_MARSHALER_TYPE] and so turns the surviving lines into an
    enum or a table.

    This development embeds the header as data, gives the preprocessor
    its meaning on it, and checks the statements of the specification
    against it. *)

From stdpp Require Import base strings list sorting gmap sets.

Open Scope string_scope.

(** * Part I: definitions *)

(** ** The header as written *)

(** A line of the header: a macro invocation, or a conditional block
    [#ifdef flag] / [#if defined(flag)] around further lines. *)
#[local] Unset Elimination Schemes.
Inductive Line : Type :=
| DEFINE_MARSHALER_TYPE (mtype mclass : string)
| IFDEF (flag : string) (body : list Line).
#[local] Set Elimination Schemes.

(** Induction on lines, with the hypothesis for every line of a block. *)
Section Line_ind.
Variable P : Line → Prop.
Hypothesis P_define : ∀ mtype mclass, P (DEFINE_MARSHALER_TYPE mtype mclass).
Hypothesis P_ifdef : ∀ flag body, Forall P body → P (IFDEF flag body).

Fixpoint Line_ind (l : Line) : P l :=
  match l with
  | DEFINE_MARSHALER_TYPE mtype mclass => P_define mtype mclass
  | IFDEF flag body =>
      P_ifdef flag body
        ((fix all (b : list Line) : Forall P b :=
            match b with
            | [] => @List.Forall_nil _ P
            | x :: b' => @List.Forall_cons _ P x b' (Line_ind x) (all b')
            end) body)
  end.
End Line_ind.

(** The header, line by line, in the order of the file. *)
Definition mtypes_h : list Line :=
  [ DEFINE_MARSHALER_TYPE "MARSHAL_TYPE_GENERIC_1" "CopyMarshaler1";
    DEFINE_MARSHALER_TYPE "MARSHAL_TYPE_GENERIC_U1" "CopyMarshalerU1";
    DEFINE_MARSHALER_TYPE "MARSHAL_TYPE_GENERIC_2" "CopyMarshaler2";
    DEFINE_MARSHALER_TYPE "MARSHAL_TYPE_GENERIC_U2" "CopyMarshalerU2";
    DEFINE_MARSHALER_TYPE "MARSHAL_TYPE_GENERIC_4" "CopyMarshaler4";
    DEFINE_MARSHALER_TYPE "MARSHAL_TYPE_GENERIC_U4" "CopyMarshalerU4";
    DEFINE_MARSHALER_TYPE "MARSHAL_TYPE_GENERIC_8" "CopyMarshaler8";

    DEFINE_MARSHALER_TYPE "MARSHAL_TYPE_WINBOOL" "WinBoolMarshaler";
    DEFINE_MARSHALER_TYPE "MARSHAL_TYPE_CBOOL" "CBoolMarshaler";
    IFDEF "FEATURE_COMINTEROP"
      [ DEFINE_MARSHALER_TYPE "MARSHAL_TYPE_VTBOOL" "VtBoolMarshaler" ];

    DEFINE_MARSHALER_TYPE "MARSHAL_TYPE_ANSICHAR" "AnsiCharMarshaler";

    DEFINE_MARSHALER_TYPE "MARSHAL_TYPE_FLOAT" "FloatMarshaler";
    DEFINE_MARSHALER_TYPE "MARSHAL_TYPE_DOUBLE" "DoubleMarshaler";

    DEFINE_MARSHALER_TYPE "MARSHAL_TYPE_CURRENCY" "CurrencyMarshaler";
    DEFINE_MARSHALER_TYPE "MARSHAL_TYPE_DECIMAL" "DecimalMarshaler";
    DEFINE_MARSHALER_TYPE "MARSHAL_TYPE_DECIMAL_PTR" "DecimalPtrMarshaler";
    DEFINE_MARSHALER_TYPE "MARSHAL_TYPE_GUID" "GuidMarshaler";
    DEFINE_MARSHALER_TYPE "MARSHAL_TYPE_GUID_PTR" "GuidPtrMarshaler";
    DEFINE_MARSHALER_TYPE "MARSHAL_TYPE_DATE" "DateMarshaler";

    DEFINE_MARSHALER_TYPE "MARSHAL_TYPE_LPWSTR" "WSTRMarshaler";
    DEFINE_MARSHALER_TYPE "MARSHAL_TYPE_LPSTR" "CSTRMarshaler";
    DEFINE_MARSHALER_TYPE "MARSHAL_TYPE_LPUTF8STR" "CUTF8Marshaler";
    DEFINE_MARSHALER_TYPE "MARSHAL_TYPE_BSTR" "BSTRMarshaler";
    DEFINE_MARSHALER_TYPE "MARSHAL_TYPE_ANSIBSTR" "AnsiBSTRMarshaler";

    DEFINE_MARSHALER_TYPE "MARSHAL_TYPE_LPWSTR_BUFFER" "WSTRBufferMarshaler";
    DEFINE_MARSHALER_TYPE "MARSHAL_TYPE_LPSTR_BUFFER" "CSTRBufferMarshaler";
    DEFINE_MARSHALER_TYPE "MARSHAL_TYPE_UTF8_BUFFER" "UTF8BufferMarshaler";

    IFDEF "FEATURE_COMINTEROP"
      [ DEFINE_MARSHALER_TYPE "MARSHAL_TYPE_INTERFACE" "InterfaceMarshaler" ];

    IFDEF "FEATURE_COMINTEROP"
      [ DEFINE_MARSHALER_TYPE "MARSHAL_TYPE_SAFEARRAY" "SafeArrayMarshaler" ];
    DEFINE_MARSHALER_TYPE "MARSHAL_TYPE_NATIVEARRAY" "NativeArrayMarshaler";

    DEFINE_MARSHALER_TYPE "MARSHAL_TYPE_ASANYA" "AsAnyAMarshaler";
    DEFINE_MARSHALER_TYPE "MARSHAL_TYPE_ASANYW" "AsAnyWMarshaler";

    DEFINE_MARSHALER_TYPE "MARSHAL_TYPE_DELEGATE" "DelegateMarshaler";

    DEFINE_MARSHALER_TYPE "MARSHAL_TYPE_BLITTABLEPTR" "BlittablePtrMarshaler";

    IFDEF "FEATURE_COMINTEROP"
      [ DEFINE_MARSHALER_TYPE "MARSHAL_TYPE_VBBYVALSTR" "VBByValStrMarshaler";
        DEFINE_MARSHALER_TYPE "MARSHAL_TYPE_VBBYVALSTRW" "VBByValStrWMarshaler" ];

    DEFINE_MARSHALER_TYPE "MARSHAL_TYPE_LAYOUTCLASSPTR" "LayoutClassPtrMarshaler";
    DEFINE_MARSHALER_TYPE "MARSHAL_TYPE_ARRAYWITHOFFSET" "ArrayWithOffsetMarshaler";

    DEFINE_MARSHALER_TYPE "MARSHAL_TYPE_BLITTABLEVALUECLASS" "BlittableValueClassMarshaler";
    DEFINE_MARSHALER_TYPE "MARSHAL_TYPE_VALUECLASS" "ValueClassMarshaler";

    DEFINE_MARSHALER_TYPE "MARSHAL_TYPE_REFERENCECUSTOMMARSHALER" "ReferenceCustomMarshaler";
    DEFINE_MARSHALER_TYPE "MARSHAL_TYPE_ARGITERATOR" "ArgIteratorMarshaler";

    IFDEF "TARGET_WINDOWS"
      [ DEFINE_MARSHALER_TYPE "MARSHAL_TYPE_BLITTABLEVALUECLASSWITHCOPYCTOR"
                              "BlittableValueClassWithCopyCtorMarshaler" ];

    IFDEF "FEATURE_COMINTEROP"
      [ DEFINE_MARSHALER_TYPE "MARSHAL_TYPE_OBJECT" "ObjectMarshaler" ];

    DEFINE_MARSHALER_TYPE "MARSHAL_TYPE_HANDLEREF" "HandleRefMarshaler";
    DEFINE_MARSHALER_TYPE "MARSHAL_TYPE_SAFEHANDLE" "SafeHandleMarshaler";
    DEFINE_MARSHALER_TYPE "MARSHAL_TYPE_CRITICALHANDLE" "CriticalHandleMarshaler";

    IFDEF "FEATURE_COMINTEROP"
      [ DEFINE_MARSHALER_TYPE "MARSHAL_TYPE_OLECOLOR" "OleColorMarshaler" ];

    DEFINE_MARSHALER_TYPE "MARSHAL_TYPE_RUNTIMETYPEHANDLE" "RuntimeTypeHandleMarshaler";
    DEFINE_MARSHALER_TYPE "MARSHAL_TYPE_RUNTIMEMETHODHANDLE" "RuntimeMethodHandleMarshaler";
    DEFINE_MARSHALER_TYPE "MARSHAL_TYPE_RUNTIMEFIELDHANDLE" "RuntimeFieldHandleMarshaler";

    DEFINE_MARSHALER_TYPE "MARSHAL_TYPE_FIXED_ARRAY" "FixedArrayMarshaler";
    DEFINE_MARSHALER_TYPE "MARSHAL_TYPE_FIXED_WSTR" "FixedWSTRMarshaler";
    DEFINE_MARSHALER_TYPE "MARSHAL_TYPE_FIXED_CSTR" "FixedCSTRMarshaler";
    DEFINE_MARSHALER_TYPE "MARSHAL_TYPE_BLITTABLE_LAYOUTCLASS" "BlittableLayoutClassMarshaler";
    DEFINE_MARSHALER_TYPE "MARSHAL_TYPE_LAYOUTCLASS" "LayoutClassMarshaler";

    DEFINE_MARSHALER_TYPE "MARSHAL_TYPE_POINTER" "PointerMarshaler" ].

(** ** Build configurations and the preprocessor *)

(** A build configuration is the set of macro names that are defined. *)
Abbreviation Config := (gset string).

(** [#ifdef flag] and [#if defined(flag)]: is the macro defined? *)
Definition defined (cfg : Config) (flag : string) : bool :=
  bool_decide (flag ∈ cfg).

(** What is left of a line after preprocessing under [cfg]: the macro
    invocations, in order, as pairs (mtype, mclass).  A block whose flag is
    not defined leaves nothing.  The two arguments are kept as written: the
    preprocessor would expand a defined macro named like one of them, so
    [cfg] stands for a build that defines no such macro, as the feature
    flags are. *)
Fixpoint preprocess (cfg : Config) (l : Line) : list (string * string) :=
  match l with
  | DEFINE_MARSHALER_TYPE mtype mclass => [(mtype, mclass)]
  | IFDEF flag body =>
      if defined cfg flag then flat_map (preprocess cfg) body else []
  end.

(** Preprocessing of a whole file: line after line. *)
Definition preprocess_file (cfg : Config) (f : list Line) : list (string * string) :=
  flat_map (preprocess cfg) f.

(** ** What the including files generate *)

(** Modelled from the spec: the definitions of [DEFINE_MARSHALER_TYPE] are
    written in the including files, which are not among the sources.  The
    header says it is used to generate the enums and tables, and the
    specification (section 6) has one pass over the rows produce the tag
    enumeration and the binding table: the enum lists the first argument of
    every surviving invocation, the binding table the pair. *)
Definition generated_enum (cfg : Config) : list string :=
  (preprocess_file cfg mtypes_h).*1.

(** Modelled from the spec: the binding table of section 6, one row
    (tag, class) for every surviving invocation. *)
Definition generated_bindings (cfg : Config) : list (string * string) :=
  preprocess_file cfg mtypes_h.

(** Modelled from the spec: the enum itself is declared in the including
    file.  The specification (section 9) calls its identifiers implicit and
    tied to declaration order: the value of an enumerator is its position,
    from 0, in the enum generated for the build. *)
Definition MarshalType_value (cfg : Config) (mtype : string) : option nat :=
  fst <$> list_find (λ t, t = mtype) (generated_enum cfg).

(** ** The table as the specification reads it *)

(** TagEntry: a tag, the converter bound to it, and the flags that must all
    be defined for the entry to be compiled in. *)
Record TagEntry : Type := mkTagEntry {
  tag : string;
  converterBinding : string;
  requiredFeatures : list string
}.

Global Instance TagEntry_eq_dec : EqDecision TagEntry.
Proof. solve_decision. Defined.

(** The entries of a line, each with the flags of the blocks around it
    (outermost first). *)
Fixpoint entries (guards : list string) (l : Line) : list TagEntry :=
  match l with
  | DEFINE_MARSHALER_TYPE mtype mclass => [mkTagEntry mtype mclass guards]
  | IFDEF flag body => flat_map (entries (guards ++ [flag])) body
  end.

(** TagSpace: every entry the header declares, in declaration order. *)
Definition TagSpace : list TagEntry :=
  Eval cbv in flat_map (entries []) mtypes_h.

(** FeatureGate: do all required flags of the entry hold under [cfg]? *)
Definition FeatureGate (cfg : Config) (e : TagEntry) : bool :=
  forallb (defined cfg) (requiredFeatures e).

(** The active entries of a build, in declaration order. *)
Definition active (cfg : Config) : list TagEntry :=
  filter (λ e, FeatureGate cfg e) TagSpace.

(** The macro invocation an entry comes from. *)
Definition row_of (e : TagEntry) : string * string :=
  (tag e, converterBinding e).

(** ** The guards of the table *)

(** The flags named by some guard of the table. *)
Definition flags_used : gset string :=
  list_to_set (flat_map requiredFeatures TagSpace).

(** The tags of the entries guarded by exactly the given flags. *)
Definition guarded_by (flags : list string) : list string :=
  tag <$> filter (λ e, requiredFeatures e = flags) TagSpace.

(** The tag whose row binds the given class. *)
Definition tag_bound_to (mclass : string) : option string :=
  (λ found, tag found.2) <$> list_find (λ e, converterBinding e = mclass) TagSpace.

(** ** Categories *)

(** Modelled from the spec: the six categories of section 4.1, in the order
    it lists them. *)
Inductive Category : Type :=
| GeneralCopy
| PrimitiveNumeric
| StringConverter
| AggregateArray
| HandleLifetime
| PlatformSpecific.

Global Instance Category_eq_dec : EqDecision Category.
Proof. solve_decision. Defined.

(** The place of a category in the order the specification lists them. *)
Definition category_rank (c : Category) : nat :=
  match c with
  | GeneralCopy => 0
  | PrimitiveNumeric => 1
  | StringConverter => 2
  | AggregateArray => 3
  | HandleLifetime => 4
  | PlatformSpecific => 5
  end.

(** Modelled from the spec: the header has no category column, the six
    categories are the specification's.  A tag is given a category where its
    identifier and class name say which one it is (a copy marshaler, a
    number, boolean, character, date or GUID, a string or string buffer, an
    array or laid-out class, a handle, the entry compiled for Windows
    only); the others are left unclassified. *)
Definition categories : list (string * Category) :=
  [ ("MARSHAL_TYPE_GENERIC_1", GeneralCopy);
    ("MARSHAL_TYPE_GENERIC_U1", GeneralCopy);
    ("MARSHAL_TYPE_GENERIC_2", GeneralCopy);
    ("MARSHAL_TYPE_GENERIC_U2", GeneralCopy);
    ("MARSHAL_TYPE_GENERIC_4", GeneralCopy);
    ("MARSHAL_TYPE_GENERIC_U4", GeneralCopy);
    ("MARSHAL_TYPE_GENERIC_8", GeneralCopy);
    ("MARSHAL_TYPE_WINBOOL", PrimitiveNumeric);
    ("MARSHAL_TYPE_CBOOL", PrimitiveNumeric);
    ("MARSHAL_TYPE_VTBOOL", PrimitiveNumeric);
    ("MARSHAL_TYPE_ANSICHAR", PrimitiveNumeric);
    ("MARSHAL_TYPE_FLOAT", PrimitiveNumeric);
    ("MARSHAL_TYPE_DOUBLE", PrimitiveNumeric);
    ("MARSHAL_TYPE_CURRENCY", PrimitiveNumeric);
    ("MARSHAL_TYPE_DECIMAL", PrimitiveNumeric);
    ("MARSHAL_TYPE_DECIMAL_PTR", PrimitiveNumeric);
    ("MARSHAL_TYPE_GUID", PrimitiveNumeric);
    ("MARSHAL_TYPE_GUID_PTR", PrimitiveNumeric);
    ("MARSHAL_TYPE_DATE", PrimitiveNumeric);
    ("MARSHAL_TYPE_LPWSTR", StringConverter);
    ("MARSHAL_TYPE_LPSTR", StringConverter);
    ("MARSHAL_TYPE_LPUTF8STR", StringConverter);
    ("MARSHAL_TYPE_BSTR", StringConverter);
    ("MARSHAL_TYPE_ANSIBSTR", StringConverter);
    ("MARSHAL_TYPE_LPWSTR_BUFFER", StringConverter);
    ("MARSHAL_TYPE_LPSTR_BUFFER", StringConverter);
    ("MARSHAL_TYPE_UTF8_BUFFER", StringConverter);
    ("MARSHAL_TYPE_VBBYVALSTR", StringConverter);
    ("MARSHAL_TYPE_VBBYVALSTRW", StringConverter);
    ("MARSHAL_TYPE_FIXED_WSTR", StringConverter);
    ("MARSHAL_TYPE_FIXED_CSTR", StringConverter);
    ("MARSHAL_TYPE_SAFEARRAY", AggregateArray);
    ("MARSHAL_TYPE_NATIVEARRAY", AggregateArray);
    ("MARSHAL_TYPE_ARRAYWITHOFFSET", AggregateArray);
    ("MARSHAL_TYPE_FIXED_ARRAY", AggregateArray);
    ("MARSHAL_TYPE_LAYOUTCLASSPTR", AggregateArray);
    ("MARSHAL_TYPE_BLITTABLEVALUECLASS", AggregateArray);
    ("MARSHAL_TYPE_VALUECLASS", AggregateArray);
    ("MARSHAL_TYPE_BLITTABLE_LAYOUTCLASS", AggregateArray);
    ("MARSHAL_TYPE_LAYOUTCLASS", AggregateArray);
    ("MARSHAL_TYPE_HANDLEREF", HandleLifetime);
    ("MARSHAL_TYPE_SAFEHANDLE", HandleLifetime);
    ("MARSHAL_TYPE_CRITICALHANDLE", HandleLifetime);
    ("MARSHAL_TYPE_RUNTIMETYPEHANDLE", HandleLifetime);
    ("MARSHAL_TYPE_RUNTIMEMETHODHANDLE", HandleLifetime);
    ("MARSHAL_TYPE_RUNTIMEFIELDHANDLE", HandleLifetime);
    ("MARSHAL_TYPE_BLITTABLEVALUECLASSWITHCOPYCTOR", PlatformSpecific) ].

(** The category of a tag, when it has one. *)
Definition category (mtype : string) : option Category :=
  (λ found, found.2.2) <$> list_find (λ p, p.1 = mtype) categories.

(** [category_before a b]: both tags are classified and the category of the
    first comes earlier in the specification's list. *)
Definition category_before (a b : option Category) : Prop :=
  match a, b with
  | Some ca, Some cb => (category_rank ca < category_rank cb)%nat
  | _, _ => False
  end.

Global Instance category_before_dec a b : Decision (category_before a b).
Proof. destruct a, b; simpl; apply _. Defined.

(** The order the specification states: whenever the category of one entry
    comes before the category of another, the first entry is declared
    before the second. *)
Definition declared_in_category_order (l : list TagEntry) : Prop :=
  ∀ i j ei ej,
    l !! i = Some ei → l !! j = Some ej →
    category_before (category (tag ei)) (category (tag ej)) → (i < j)%nat.




(** The entry at position [i] is in its place: it is declared before every
    entry of a later category. *)
Definition precedes_later_categories (l : list TagEntry) (i : nat) : Prop :=
  ∀ ei j ej,
    l !! i = Some ei → l !! j = Some ej →
    category_before (category (tag ei)) (category (tag ej)) → (i < j)%nat.


(** ** The registry and the dispatcher *)

(** Modelled from the spec: a converter instance.  The header only names
    the class; its operations are collaborators outside the registry, so an
    instance is known here by the class it was made from. *)
Record ConverterContract : Type := mkContract {
  converter_class : string
}.

Global Instance ConverterContract_eq_dec : EqDecision ConverterContract.
Proof. solve_decision. Defined.

(** Modelled from the spec: a reference to an instance owned by the
    registry is its position in the registry's store; two references are to
    the same instance when they are equal. *)
Abbreviation ContractRef := nat.

(** Modelled from the spec: the registry (section 4.4) owns the instances,
    in order of construction, and a dense array from the ordinal of a tag
    to the reference of its instance, where [None] marks an unused slot. *)
Record MarshalerRegistry : Type := mkRegistry {
  instances : list ConverterContract;
  index : list (option ContractRef)
}.

(** Modelled from the spec: the failure of section 7 that belongs to
    construction, with the tag whose class is missing. *)
Inductive BuildError : Type :=
| BuildInconsistency (mtype : string).

(** Modelled from the spec: the two failures of section 7 that belong to
    dispatch. *)
Inductive DispatchError : Type :=
| UnsupportedMarshalKind
| FeatureNotSupported.

(** Modelled from the spec: the dispatcher is given explicit tag values that
    do not depend on conditional inclusion (section 9); the value of a
    declared tag is its position in the whole table. *)
Definition TagId_value (mtype : string) : option Z :=
  (λ found, Z.of_nat found.1) <$> list_find (λ e, tag e = mtype) TagSpace.

(** The registry before construction: no instance, no slot. *)
Definition empty_registry : MarshalerRegistry := mkRegistry [] [].

(** The reference stored for an ordinal, if any. *)
Definition slot (reg : MarshalerRegistry) (ordinal : nat) : option ContractRef :=
  default None (index reg !! ordinal).


Section Registry.

(** Which converter classes exist in the build: decided outside the table. *)
Variable implemented : string → bool.

(** Modelled from the spec: one step of the construction of section 4.4.
    An entry whose gate holds gets a new instance of its class, stored at
    the entry's ordinal in the index, which grows to hold it; a class that
    does not exist in the build is fatal.  An entry whose gate fails is
    skipped. *)
Definition bind_entry (cfg : Config) (ordinal : nat) (e : TagEntry)
    (reg : MarshalerRegistry) : BuildError + MarshalerRegistry :=
  if FeatureGate cfg e then
    if implemented (converterBinding e) then
      inr (mkRegistry
             (instances reg ++ [mkContract (converterBinding e)])
             (<[ordinal := Some (length (instances reg))]>
                (resize (S ordinal `max` length (index reg)) None (index reg))))
    else inl (BuildInconsistency (tag e))
  else inr reg.

(** Modelled from the spec: the construction iterates the table in
    declaration order, the ordinal counting every declared entry. *)
Fixpoint construct_from (cfg : Config) (ordinal : nat) (es : list TagEntry)
    (reg : MarshalerRegistry) : BuildError + MarshalerRegistry :=
  match es with
  | [] => inr reg
  | e :: es' =>
      match bind_entry cfg ordinal e reg with
      | inl err => inl err
      | inr reg' => construct_from cfg (S ordinal) es' reg'
      end
  end.

(** Modelled from the spec: the registry of a build is constructed once,
    from the whole table and the empty registry. *)
Definition construct (cfg : Config) : BuildError + MarshalerRegistry :=
  construct_from cfg 0 TagSpace empty_registry.

End Registry.

(** Modelled from the spec: [resolve] of section 4.5.  A value that is the
    ordinal of no declared tag is an unsupported kind; a declared tag with a
    filled slot resolves to the reference in it; a declared tag with no
    instance in this build is a feature that is not supported. *)
Definition resolve (reg : MarshalerRegistry) (tagid : Z)
    : DispatchError + ContractRef :=
  if decide (0 ≤ tagid < Z.of_nat (length TagSpace))%Z then
    match slot reg (Z.to_nat tagid) with
    | Some r => inr r
    | None => inl FeatureNotSupported
    end
  else inl UnsupportedMarshalKind.


(** ** Including the header *)

(** The build whose only defined macros are the two flags of the table, each
    as the boolean says. *)
Definition two_flags (com win : bool) : Config :=
  (if com then {["FEATURE_COMINTEROP"]} else ∅)
  ∪ (if win then {["TARGET_WINDOWS"]} else ∅).

(** A build that defines no macro named like a tag or a class of the table:
    the arguments of the rows reach the including file as written. *)
Definition rows_as_written (cfg : Config) : Prop :=
  ∀ e, e ∈ TagSpace → (tag e ∉ cfg) ∧ (converterBinding e ∉ cfg).

(** What the including file reads for one row of the header: the expansion
    of the invocation when [DEFINE_MARSHALER_TYPE] is defined, the
    invocation as written when it is not. *)
Inductive Token (A : Type) : Type :=
| Expansion (a : A)
| Invocation (mtype mclass : string).

Arguments Expansion {A} a.
Arguments Invocation {A} mtype mclass.

(** [#include "mtypes.h"] with the macros of [cfg] defined, [body] being the
    definition of [DEFINE_MARSHALER_TYPE] in force if it is one of them: the
    tokens the rows leave, and the defined macros after the last line of the
    header, [#undef DEFINE_MARSHALER_TYPE]. *)
Definition include_mtypes_h {A} (body : string → string → A) (cfg : Config)
    : list (Token A) * Config :=
  ((λ r, if defined cfg "DEFINE_MARSHALER_TYPE"
         then Expansion (body r.1 r.2) else Invocation r.1 r.2)
     <$> preprocess_file cfg mtypes_h,
   cfg ∖ {["DEFINE_MARSHALER_TYPE"]}).

(** * Part II: properties *)

(** ** The preprocessor computes the FeatureGate filter *)

Lemma filter_flat_map {A B} (P : B → Prop) `{!∀ x, Decision (P x)}
    (f : A → list B) (l : list A) :
  filter P (flat_map f l) = flat_map (λ x, filter P (f x)) l.
Proof.
  induction l as [|x l IH]; simpl; [done|].
  by rewrite filter_app, IH.
Qed.

Lemma fmap_flat_map {A B C} (g : B → C) (f : A → list B) (l : list A) :
  g <$> flat_map f l = flat_map (λ x, g <$> f x) l.
Proof.
  induction l as [|x l IH]; simpl; [done|].
  by rewrite fmap_app, IH.
Qed.

Lemma flat_map_Forall_ext {A B} (P : A → Prop) (f g : A → list B) (l : list A) :
  Forall P l → (∀ x, P x → f x = g x) → flat_map f l = flat_map g l.
Proof.
  intros Hl Hfg. induction Hl as [|x l Hx _ IH]; simpl; [done|].
  by rewrite IH, (Hfg x Hx).
Qed.

Lemma flat_map_nil {A B} (l : list A) :
  flat_map (λ _ : A, @nil B) l = [].
Proof. by induction l. Qed.

(** The rows that survive preprocessing of a line are the rows of its
    entries whose gate holds, provided the flags of the enclosing blocks
    hold; otherwise no entry of the line passes the gate. *)
Lemma preprocess_entries (cfg : Config) (l : Line) :
  ∀ guards,
    row_of <$> filter (λ e, FeatureGate cfg e) (entries guards l)
    = if forallb (defined cfg) guards then preprocess cfg l else [].
Proof.
  induction l as [mtype mclass|flag body IH] using Line_ind; intros guards.
  - simpl. rewrite filter_cons, filter_nil.
    case_decide as Hgate; unfold FeatureGate in Hgate; simpl in Hgate;
      destruct (forallb (defined cfg) guards); simpl in *; done.
  - simpl. rewrite filter_flat_map, fmap_flat_map.
    rewrite (flat_map_Forall_ext _ _
               (λ x, if forallb (defined cfg) (guards ++ [flag])
                     then preprocess cfg x else []) _ IH) by auto.
    rewrite forallb_app. simpl. rewrite andb_true_r.
    destruct (forallb (defined cfg) guards), (defined cfg flag); simpl;
      auto using flat_map_nil.
Qed.

Lemma preprocess_file_active (cfg : Config) :
  preprocess_file cfg mtypes_h = row_of <$> active cfg.
Proof.
  unfold preprocess_file, active.
  change TagSpace with (flat_map (entries []) mtypes_h).
  rewrite filter_flat_map, fmap_flat_map.
  apply flat_map_Forall_ext with (P := λ _, True).
  - by apply Forall_forall.
  - intros l _. by rewrite preprocess_entries.
Qed.

Lemma generated_enum_active (cfg : Config) :
  generated_enum cfg = tag <$> active cfg.
Proof.
  unfold generated_enum. rewrite preprocess_file_active.
  rewrite <- list_fmap_compose. done.
Qed.

Lemma generated_bindings_active (cfg : Config) :
  generated_bindings cfg = row_of <$> active cfg.
Proof. apply preprocess_file_active. Qed.

(** ** The gate and the active entries *)

Lemma defined_spec (cfg : Config) (flag : string) :
  defined cfg flag = true ↔ flag ∈ cfg.
Proof. unfold defined. apply bool_decide_eq_true. Qed.

Lemma FeatureGate_spec (cfg : Config) (e : TagEntry) :
  FeatureGate cfg e ↔ ∀ flag, flag ∈ requiredFeatures e → flag ∈ cfg.
Proof.
  unfold FeatureGate, defined. rewrite forallb_True, Forall_forall.
  by setoid_rewrite bool_decide_spec.
Qed.

(** Every guard is positive ([#ifdef], never [#ifndef]): defining more
    flags can only let more entries through. *)
Lemma FeatureGate_mono (cfg1 cfg2 : Config) (e : TagEntry) :
  cfg1 ⊆ cfg2 → FeatureGate cfg1 e → FeatureGate cfg2 e.
Proof. rewrite !FeatureGate_spec. set_solver. Qed.

Lemma elem_of_active (cfg : Config) (e : TagEntry) :
  e ∈ active cfg ↔ FeatureGate cfg e ∧ e ∈ TagSpace.
Proof. unfold active. by rewrite list_elem_of_filter. Qed.

Lemma active_sublist (cfg : Config) : active cfg `sublist_of` TagSpace.
Proof. apply sublist_filter. Qed.

Lemma filter_sublist_mono {A} (P Q : A → Prop)
    `{!∀ x, Decision (P x)} `{!∀ x, Decision (Q x)} (l : list A) :
  (∀ x, x ∈ l → P x → Q x) → filter P l `sublist_of` filter Q l.
Proof.
  induction l as [|x l IH]; intros HPQ; [done|].
  rewrite !filter_cons.
  assert (filter P l `sublist_of` filter Q l) as Hrec
    by (apply IH; intros y Hy; apply HPQ; by right).
  destruct (decide (P x)) as [HP|HP], (decide (Q x)) as [HQ|HQ].
  - by apply sublist_skip.
  - destruct HQ. apply HPQ; [left|done].
  - by apply sublist_cons.
  - done.
Qed.

(** Two entries of a list without duplicate tags that carry the same tag
    are the same entry. *)
Lemma NoDup_tag_inj (l : list TagEntry) (e1 e2 : TagEntry) :
  NoDup (tag <$> l) → e1 ∈ l → e2 ∈ l → tag e1 = tag e2 → e1 = e2.
Proof.
  intros Hnd (i & Hi)%list_elem_of_lookup (j & Hj)%list_elem_of_lookup Heq.
  assert (i = j) as ->.
  { apply (NoDup_lookup (tag <$> l) i j (tag e1) Hnd).
    - by rewrite list_lookup_fmap, Hi.
    - by rewrite list_lookup_fmap, Hj, Heq. }
  congruence.
Qed.

Lemma TagSpace_NoDup : NoDup (tag <$> TagSpace).
Proof. apply (bool_decide_unpack _). by vm_compute. Qed.

Lemma TagSpace_tags_distinct (i j : nat) (ei ej : TagEntry) :
  TagSpace !! i = Some ei → TagSpace !! j = Some ej → i ≠ j → tag ei ≠ tag ej.
Proof.
  intros Hi Hj Hij Htag. apply Hij.
  apply (NoDup_lookup (tag <$> TagSpace) i j (tag ei) TagSpace_NoDup).
  - by rewrite list_lookup_fmap, Hi.
  - by rewrite list_lookup_fmap, Hj, Htag.
Qed.

Lemma active_NoDup (cfg : Config) : NoDup (tag <$> active cfg).
Proof.
  eapply sublist_NoDup; [apply TagSpace_NoDup|].
  apply fmap_sublist, active_sublist.
Qed.

(** ** Uniqueness of the declared tags *)

(** C5.  Every tag of the table is declared exactly once: the list of
    declared tags has no duplicate, any two entries at different positions
    carry different tags, and so the enum generated for any build has no
    duplicate enumerator either. *)
Theorem TagSpace_tags_declared_once :
  NoDup (tag <$> TagSpace)
  ∧ (∀ i j ei ej, TagSpace !! i = Some ei → TagSpace !! j = Some ej →
       i ≠ j → tag ei ≠ tag ej)
  ∧ (∀ cfg : Config, NoDup (generated_enum cfg)).
Proof.
  split_and!.
  - apply TagSpace_NoDup.
  - apply TagSpace_tags_distinct.
  - intros cfg. rewrite generated_enum_active. apply active_NoDup.
Qed.

(** ** Excluded entries leave no trace *)

(** C6.  An entry whose guard is false under [cfg] is absent from what the
    preprocessor generates: its tag is no enumerator, no row of the binding
    table carries its tag, and there is no placeholder, since every
    position of the generated enum holds the tag of an entry whose guard
    is true and the enum is as long as the list of those entries. *)
Theorem excluded_entry_absent (cfg : Config) (e : TagEntry) :
  e ∈ TagSpace → (¬ FeatureGate cfg e) →
  (tag e ∉ generated_enum cfg)
  ∧ (∀ mclass, (tag e, mclass) ∉ generated_bindings cfg)
  ∧ (∀ i t, generated_enum cfg !! i = Some t →
       ∃ e', e' ∈ TagSpace ∧ FeatureGate cfg e' ∧ tag e' = t ∧
             generated_bindings cfg !! i = Some (t, converterBinding e'))
  ∧ length (generated_enum cfg) = length (active cfg)
  ∧ length (generated_bindings cfg) = length (active cfg)
  ∧ (length (generated_enum cfg) < length TagSpace)%nat.
Proof.
  intros He Hoff.
  assert (tag e ∉ tag <$> active cfg) as Hout.
  { intros (e' & Htag & [Hon He']%elem_of_active)%list_elem_of_fmap.
    apply Hoff.
    by rewrite (NoDup_tag_inj TagSpace e e' TagSpace_NoDup He He' Htag). }
  rewrite generated_enum_active, generated_bindings_active.
  split_and!.
  - done.
  - intros mclass (e' & Hrow & He')%list_elem_of_fmap.
    apply Hout, list_elem_of_fmap. exists e'. split; [|done].
    unfold row_of in Hrow. congruence.
  - intros i t Hi. rewrite !list_lookup_fmap in *.
    destruct (active cfg !! i) as [e'|] eqn:Hi'; [|done].
    injection Hi as <-. exists e'.
    by apply list_elem_of_lookup_2, elem_of_active in Hi' as [??].
  - by rewrite length_fmap.
  - by rewrite length_fmap.
  - rewrite length_fmap. unfold active.
    by apply (length_filter_lt _ _ e).
Qed.

(** C6 at work: a build without FEATURE_COMINTEROP and the entry of
    MARSHAL_TYPE_VTBOOL. *)
Lemma excluded_entry_absent_witness :
  ("MARSHAL_TYPE_VTBOOL" ∉ generated_enum {["TARGET_WINDOWS"]})
  ∧ (length (generated_enum {["TARGET_WINDOWS"]}) < 57)%nat.
Proof.
  destruct (excluded_entry_absent {["TARGET_WINDOWS"]}
              (mkTagEntry "MARSHAL_TYPE_VTBOOL" "VtBoolMarshaler"
                          ["FEATURE_COMINTEROP"]))
    as (H1 & _ & _ & _ & _ & H2).
  - apply (bool_decide_unpack _). by vm_compute.
  - apply (bool_decide_unpack _). by vm_compute.
  - split; [exact H1 | exact H2].
Defined.

(** ** The guards of the table *)

(** C9.  No entry sits under more than one flag; the flags of the table are
    FEATURE_COMINTEROP and TARGET_WINDOWS; the first guards exactly seven
    entries and the second exactly one; the other 49 of the 57 entries carry
    no guard and are active in every build. *)
Theorem guards_of_the_table :
  Forall (λ e, (length (requiredFeatures e) ≤ 1)%nat) TagSpace
  ∧ flags_used = {["FEATURE_COMINTEROP"; "TARGET_WINDOWS"]}
  ∧ guarded_by ["FEATURE_COMINTEROP"] =
      ["MARSHAL_TYPE_VTBOOL"; "MARSHAL_TYPE_INTERFACE"; "MARSHAL_TYPE_SAFEARRAY";
       "MARSHAL_TYPE_VBBYVALSTR"; "MARSHAL_TYPE_VBBYVALSTRW";
       "MARSHAL_TYPE_OBJECT"; "MARSHAL_TYPE_OLECOLOR"]
  ∧ guarded_by ["TARGET_WINDOWS"] =
      ["MARSHAL_TYPE_BLITTABLEVALUECLASSWITHCOPYCTOR"]
  ∧ length (guarded_by []) = 49
  ∧ length TagSpace = 57
  ∧ (∀ (cfg : Config) e,
       e ∈ TagSpace → requiredFeatures e = [] → e ∈ active cfg)
  ∧ guarded_by [] = generated_enum ∅.
Proof.
  split_and!.
  - apply (bool_decide_unpack _). by vm_compute.
  - by vm_compute.
  - by vm_compute.
  - by vm_compute.
  - by vm_compute.
  - done.
  - intros cfg e He Hfree. apply elem_of_active. split; [|done].
    apply FeatureGate_spec. intros flag. rewrite Hfree. by intros ?%elem_of_nil.
  - by vm_compute.
Qed.

(** ** Monotonicity in the configuration *)

(** C10.  When every flag defined in [cfg1] is defined in [cfg2], the
    entries active under [cfg1] are a subsequence, in the same order, of the
    entries active under [cfg2]; so are the generated binding rows; and a
    tag bound under [cfg1] is bound under [cfg2] to the same class and to no
    other. *)
Theorem active_monotone (cfg1 cfg2 : Config) :
  cfg1 ⊆ cfg2 →
  active cfg1 `sublist_of` active cfg2
  ∧ generated_bindings cfg1 `sublist_of` generated_bindings cfg2
  ∧ generated_enum cfg1 `sublist_of` generated_enum cfg2
  ∧ (∀ mtype mclass, (mtype, mclass) ∈ generated_bindings cfg1 →
       (mtype, mclass) ∈ generated_bindings cfg2
       ∧ ∀ mclass', (mtype, mclass') ∈ generated_bindings cfg2 → mclass' = mclass).
Proof.
  intros Hsub.
  assert (active cfg1 `sublist_of` active cfg2) as Hact.
  { apply filter_sublist_mono. intros e _. by apply FeatureGate_mono. }
  assert (generated_bindings cfg1 `sublist_of` generated_bindings cfg2) as Hrows.
  { rewrite !generated_bindings_active. by apply fmap_sublist. }
  split_and!; [done|done| |].
  - rewrite !generated_enum_active. by apply fmap_sublist.
  - intros mtype mclass Hin.
    pose proof (sublist_subseteq _ _ Hrows _ Hin) as Hin2.
    split; [done|]. intros mclass' Hin2'.
    rewrite generated_bindings_active in Hin2, Hin2'.
    apply list_elem_of_fmap in Hin2 as (e & He & Hact_e).
    apply list_elem_of_fmap in Hin2' as (e' & He' & Hact_e').
    unfold row_of in He, He'. simplify_eq.
    assert (e' = e) as ->; [|done].
    apply (NoDup_tag_inj (active cfg2)); auto using active_NoDup.
Qed.

(** C10 at work: the build with no flag against the build with
    FEATURE_COMINTEROP. *)
Lemma active_monotone_witness :
  active ∅ `sublist_of` active {["FEATURE_COMINTEROP"]}.
Proof.
  apply (active_monotone ∅ {["FEATURE_COMINTEROP"]}).
  apply empty_subseteq.
Defined.

(** ** The numeric value of an enumerator *)

(** The position of a tag in a list of entries with distinct tags, filtered
    by [P], is the number of entries before it that pass [P]. *)
Lemma list_find_filtered_tag (P : TagEntry → Prop) `{!∀ x, Decision (P x)}
    (l : list TagEntry) (i : nat) (e : TagEntry) :
  NoDup (tag <$> l) → l !! i = Some e → P e →
  list_find (λ t, t = tag e) (tag <$> filter P l)
  = Some (length (filter P (take i l)), tag e).
Proof.
  intros Hnd Hi HP.
  rewrite <- (take_drop_middle l i e Hi) in Hnd |- * at 1.
  rewrite filter_app, filter_cons_True, fmap_app by done.
  rewrite fmap_app, NoDup_app in Hnd. destruct Hnd as (_ & Hfresh & _).
  apply list_find_app_Some. right. split_and!.
  - by rewrite length_fmap.
  - apply list_find_None, Forall_forall. intros t Ht ->.
    apply list_elem_of_fmap in Ht as (e' & Htag & [_ He']%list_elem_of_filter).
    apply (Hfresh (tag e)).
    + rewrite Htag. by apply list_elem_of_fmap_2.
    + rewrite fmap_cons. left.
  - rewrite length_fmap, Nat.sub_diag. simpl. by rewrite decide_True.
Qed.

Lemma MarshalType_value_rank (cfg : Config) (i : nat) (e : TagEntry) :
  TagSpace !! i = Some e → FeatureGate cfg e →
  MarshalType_value cfg (tag e)
  = Some (length (filter (λ e', FeatureGate cfg e') (take i TagSpace))).
Proof.
  intros Hi Hon. unfold MarshalType_value.
  rewrite generated_enum_active. unfold active.
  by rewrite (list_find_filtered_tag _ TagSpace i e TagSpace_NoDup Hi Hon).
Qed.

Lemma filter_ext_elem_of {A} (P Q : A → Prop)
    `{!∀ x, Decision (P x)} `{!∀ x, Decision (Q x)} (l : list A) :
  (∀ x, x ∈ l → P x ↔ Q x) → filter P l = filter Q l.
Proof.
  induction l as [|x l IH]; intros HPQ; [done|].
  rewrite !filter_cons, IH by (intros y Hy; apply HPQ; by right).
  assert (P x ↔ Q x) as Hx by (apply HPQ; left).
  destruct (decide (P x)), (decide (Q x)); tauto || done.
Qed.

(** C2, refuted as stated.  MARSHAL_TYPE_ANSICHAR is active with and without
    FEATURE_COMINTEROP, and its value is 10 in the first build and 9 in the
    second: leaving MARSHAL_TYPE_VTBOOL out moves every later enumerator
    down by one. *)
Lemma enum_value_shifts :
  MarshalType_value {["FEATURE_COMINTEROP"]} "MARSHAL_TYPE_ANSICHAR" = Some 10
  ∧ MarshalType_value ∅ "MARSHAL_TYPE_ANSICHAR" = Some 9
  ∧ ¬ (∀ (cfg1 cfg2 : Config) mtype v1 v2,
         MarshalType_value cfg1 mtype = Some v1 →
         MarshalType_value cfg2 mtype = Some v2 → v1 = v2).
Proof.
  assert (MarshalType_value {["FEATURE_COMINTEROP"]} "MARSHAL_TYPE_ANSICHAR"
          = Some 10) as H1 by (by vm_compute).
  assert (MarshalType_value ∅ "MARSHAL_TYPE_ANSICHAR" = Some 9) as H2
    by (by vm_compute).
  split_and!; [done|done|].
  intros Hsame. by specialize (Hsame _ _ _ _ _ H1 H2).
Qed.

(** C2, amended.  For an entry active in two builds, the tag and the class
    bound to it are the same in both; its value in a build is the number of
    active entries declared before it; so the two values agree when the two
    builds agree on the guards of the entries declared before it. *)
Theorem enum_value_of_shared_tag (cfg1 cfg2 : Config) (i : nat) (e : TagEntry) :
  TagSpace !! i = Some e → FeatureGate cfg1 e → FeatureGate cfg2 e →
  (tag e, converterBinding e) ∈ generated_bindings cfg1
  ∧ (tag e, converterBinding e) ∈ generated_bindings cfg2
  ∧ MarshalType_value cfg1 (tag e)
    = Some (length (filter (λ e', FeatureGate cfg1 e') (take i TagSpace)))
  ∧ MarshalType_value cfg2 (tag e)
    = Some (length (filter (λ e', FeatureGate cfg2 e') (take i TagSpace)))
  ∧ ((∀ e', e' ∈ take i TagSpace → FeatureGate cfg1 e' ↔ FeatureGate cfg2 e') →
     MarshalType_value cfg1 (tag e) = MarshalType_value cfg2 (tag e)).
Proof.
  intros Hi Hon1 Hon2.
  pose proof (list_elem_of_lookup_2 _ _ _ Hi) as He.
  rewrite !generated_bindings_active.
  rewrite !(MarshalType_value_rank _ i e) by done.
  split_and!; try done.
  - apply (list_elem_of_fmap_2 row_of), elem_of_active. done.
  - apply (list_elem_of_fmap_2 row_of), elem_of_active. done.
  - intros Hagree. by rewrite (filter_ext_elem_of _ _ _ Hagree).
Qed.

(** C2 amended, at work: MARSHAL_TYPE_GENERIC_4 has value 4 with and without
    FEATURE_COMINTEROP. *)
Lemma enum_value_of_shared_tag_witness :
  MarshalType_value ∅ "MARSHAL_TYPE_GENERIC_4"
  = MarshalType_value {["FEATURE_COMINTEROP"]} "MARSHAL_TYPE_GENERIC_4".
Proof.
  apply (enum_value_of_shared_tag ∅ {["FEATURE_COMINTEROP"]} 4
           (mkTagEntry "MARSHAL_TYPE_GENERIC_4" "CopyMarshaler4" [])).
  - reflexivity.
  - by vm_compute.
  - by vm_compute.
  - intros e' He'. apply (bool_decide_unpack _).
    revert e' He'. apply Forall_forall, (bool_decide_unpack _). by vm_compute.
Defined.

(** ** Declaration order and categories *)




Lemma category_order_by_entry (l : list TagEntry) :
  declared_in_category_order l ↔ ∀ i, precedes_later_categories l i.
Proof.
  unfold declared_in_category_order, precedes_later_categories.
  split; intros Hord; intros; by eapply Hord.
Qed.



(** ** Construction of the registry *)

Lemma slot_bind (idx : list (option ContractRef)) (insts : list ConverterContract)
    (ordinal k : nat) (r : ContractRef) :
  slot (mkRegistry insts
          (<[ordinal := Some r]>
             (resize (S ordinal `max` length idx) None idx))) k
  = if decide (k = ordinal) then Some r else slot (mkRegistry insts idx) k.
Proof.
  unfold slot; simpl. case_decide as Hk.
  - subst k. rewrite list_lookup_insert_eq; [done|].
    rewrite length_resize. lia.
  - rewrite list_lookup_insert_ne by done.
    destruct (decide (k < length idx)%nat) as [Hlt|Hge].
    + rewrite lookup_resize by lia. done.
    + rewrite (lookup_ge_None_2 idx k) by lia. simpl.
      destruct (decide (k < S ordinal `max` length idx)%nat).
      * rewrite lookup_resize_new by lia. done.
      * rewrite lookup_resize_old by lia. done.
Qed.

Section Registry_facts.

Variable implemented : string → bool.

Lemma bind_entry_active (cfg : Config) (ordinal : nat) (e : TagEntry)
    (reg reg' : MarshalerRegistry) :
  bind_entry implemented cfg ordinal e reg = inr reg' → FeatureGate cfg e →
  instances reg' = (instances reg ++ [mkContract (converterBinding e)])%list
  ∧ ∀ k, slot reg' k
         = if decide (k = ordinal) then Some (length (instances reg))
           else slot reg k.
Proof.
  unfold bind_entry. intros Hbind Hon.
  destruct (FeatureGate cfg e); [|done].
  destruct (implemented (converterBinding e)); [|done].
  injection Hbind as <-. split; [done|].
  intros k. rewrite slot_bind. by destruct reg.
Qed.

Lemma bind_entry_excluded (cfg : Config) (ordinal : nat) (e : TagEntry)
    (reg reg' : MarshalerRegistry) :
  bind_entry implemented cfg ordinal e reg = inr reg' → ¬ FeatureGate cfg e →
  reg' = reg.
Proof.
  unfold bind_entry. intros Hbind Hoff.
  destruct (FeatureGate cfg e); [by destruct Hoff|congruence].
Qed.

(** The loop invariant of the construction: the store only grows, slots
    outside the ordinals of the entries at hand are untouched, the slot of
    an active entry refers to an instance of its class, and the slot of an
    excluded entry is left as it was. *)
Lemma construct_from_spec (cfg : Config) (es : list TagEntry) :
  ∀ (ordinal : nat) (reg reg' : MarshalerRegistry),
    construct_from implemented cfg ordinal es reg = inr reg' →
    (∃ more, instances reg' = (instances reg ++ more)%list)
    ∧ (∀ k, (k < ordinal ∨ ordinal + length es ≤ k)%nat →
         slot reg' k = slot reg k)
    ∧ (∀ i e, es !! i = Some e →
         if decide (FeatureGate cfg e)
         then ∃ r, slot reg' (ordinal + i) = Some r
                   ∧ (length (instances reg) ≤ r)%nat
                   ∧ instances reg' !! r = Some (mkContract (converterBinding e))
         else slot reg' (ordinal + i) = slot reg (ordinal + i)).
Proof.
  induction es as [|e0 es IH]; intros ordinal reg reg' Hc; simpl in Hc.
  { injection Hc as <-. split_and!; [by exists []; rewrite app_nil_r|done|].
    intros i e Hi. by rewrite lookup_nil in Hi. }
  destruct (bind_entry implemented cfg ordinal e0 reg) as [err|reg1] eqn:Hb;
    [done|].
  destruct (IH _ _ _ Hc) as ((more & Hmore) & Hout & Hin).
  assert (∃ grown, instances reg1 = (instances reg ++ grown)%list
                   ∧ ∀ k, k ≠ ordinal → slot reg1 k = slot reg k)
    as (grown & Hgrown & Hothers).
  { destruct (decide (FeatureGate cfg e0)) as [Hon|Hoff].
    - destruct (bind_entry_active _ _ _ _ _ Hb Hon) as [Hi Hs].
      eexists; split; [done|]. intros k Hk. by rewrite Hs, decide_False.
    - rewrite (bind_entry_excluded _ _ _ _ _ Hb Hoff).
      exists []. by rewrite app_nil_r. }
  split_and!.
  - exists (grown ++ more)%list. by rewrite Hmore, Hgrown, <- app_assoc.
  - intros k Hk. simpl in Hk.
    rewrite Hout by lia. apply Hothers. lia.
  - intros [|i] e Hi; simpl in Hi.
    + injection Hi as ->. rewrite Nat.add_0_r, Hout by lia.
      case_decide as Hgate.
      * destruct (bind_entry_active _ _ _ _ _ Hb Hgate) as [Hinst Hs].
        exists (length (instances reg)). split_and!.
        -- by rewrite Hs, decide_True.
        -- done.
        -- rewrite Hmore, Hinst, <- app_assoc.
           by rewrite lookup_app_r, Nat.sub_diag.
      * by rewrite (bind_entry_excluded _ _ _ _ _ Hb Hgate).
    + specialize (Hin i e Hi).
      replace (ordinal + S i)%nat with (S ordinal + i)%nat by lia.
      case_decide as Hgate.
      * destruct Hin as (r & Hr & Hle & Hinst). exists r. split_and!; [done| |done].
        rewrite Hgrown, length_app in Hle. lia.
      * rewrite Hin. apply Hothers. lia.
Qed.

Lemma slot_empty (k : nat) : slot empty_registry k = None.
Proof. by destruct k. Qed.

(** The constructed registry, slot by slot. *)
Lemma construct_spec (cfg : Config) (reg : MarshalerRegistry) :
  construct implemented cfg = inr reg →
  (∀ i e, TagSpace !! i = Some e → FeatureGate cfg e →
     ∃ r, slot reg i = Some r
          ∧ instances reg !! r = Some (mkContract (converterBinding e)))
  ∧ (∀ i e, TagSpace !! i = Some e → ¬ FeatureGate cfg e → slot reg i = None).
Proof.
  intros Hc. destruct (construct_from_spec _ _ _ _ _ Hc) as (_ & _ & Hin).
  split; intros i e Hi Hgate; specialize (Hin i e Hi); simpl in Hin;
    rewrite decide_bool_decide in Hin.
  - rewrite bool_decide_eq_true_2 in Hin by done.
    destruct Hin as (r & ? & _ & ?). by exists r.
  - rewrite bool_decide_eq_false_2 in Hin by done.
    by rewrite Hin, slot_empty.
Qed.

(** Construction succeeds exactly when the class of every active entry
    exists in the build. *)
Lemma construct_from_total (cfg : Config) (es : list TagEntry) :
  ∀ (ordinal : nat) (reg : MarshalerRegistry),
    (∀ e, e ∈ es → FeatureGate cfg e → implemented (converterBinding e)) →
    ∃ reg', construct_from implemented cfg ordinal es reg = inr reg'.
Proof.
  induction es as [|e0 es IH]; intros ordinal reg Himpl; simpl; [by eexists|].
  assert (∃ reg1, bind_entry implemented cfg ordinal e0 reg = inr reg1)
    as [reg1 ->].
  { unfold bind_entry. destruct (FeatureGate cfg e0) eqn:Hgate; [|by eexists].
    assert (implemented (converterBinding e0) = true) as ->; [|by eexists].
    apply Is_true_true_1, Himpl; [left|by rewrite Hgate]. }
  apply IH. intros e He. apply Himpl. by right.
Qed.

Lemma construct_total (cfg : Config) :
  (∀ e, e ∈ active cfg → implemented (converterBinding e)) →
  ∃ reg, construct implemented cfg = inr reg.
Proof.
  intros Himpl. apply construct_from_total.
  intros e He Hgate. apply Himpl, elem_of_active. done.
Qed.

(** A class missing from the build for an active entry is fatal. *)
Lemma construct_from_inconsistent (cfg : Config) (es : list TagEntry) :
  ∀ (ordinal : nat) (reg : MarshalerRegistry) (e : TagEntry),
    e ∈ es → FeatureGate cfg e → implemented (converterBinding e) = false →
    ∃ mtype, construct_from implemented cfg ordinal es reg
             = inl (BuildInconsistency mtype).
Proof.
  induction es as [|e0 es IH]; intros ordinal reg e He Hgate Hmissing.
  { by apply elem_of_nil in He. }
  simpl. destruct (bind_entry implemented cfg ordinal e0 reg) as [[mtype]|reg1] eqn:Hb.
  { by exists mtype. }
  apply elem_of_cons in He as [->|He]; [|by apply (IH _ _ e)].
  unfold bind_entry in Hb. rewrite Hmissing in Hb.
  by destruct (FeatureGate cfg e0).
Qed.






End Registry_facts.

(** ** Tag values *)

Lemma TagId_value_lookup (i : nat) (e : TagEntry) :
  TagSpace !! i = Some e → TagId_value (tag e) = Some (Z.of_nat i).
Proof.
  intros Hi. unfold TagId_value.
  assert (list_find (λ e', tag e' = tag e) TagSpace = Some (i, e)) as ->; [|done].
  apply list_find_Some. split_and!; [done|done|].
  intros j e' Hj Hlt Htag.
  apply (TagSpace_tags_distinct j i e' e Hj Hi); [lia|done].
Qed.

Lemma TagId_value_elem_of (e : TagEntry) :
  e ∈ TagSpace →
  ∃ i, TagSpace !! i = Some e ∧ TagId_value (tag e) = Some (Z.of_nat i).
Proof.
  intros (i & Hi)%list_elem_of_lookup. exists i.
  split; [done|]. by apply TagId_value_lookup.
Qed.

(** ** Dispatch *)

(** C1.  When the class of every active entry exists in the build, the
    registry is constructed, and [resolve] on the value of any active tag
    returns a reference to a live instance of the class bound to the tag.
    MARSHAL_TYPE_GENERIC_4 carries no guard and so resolves, to an
    instance of CopyMarshaler4, in every such build. *)
Theorem resolve_active (implemented : string → bool) (cfg : Config) :
  (∀ e, e ∈ active cfg → implemented (converterBinding e)) →
  ∃ reg, construct implemented cfg = inr reg
    ∧ (∀ e, e ∈ TagSpace → FeatureGate cfg e →
         ∃ v r, TagId_value (tag e) = Some v
                ∧ resolve reg v = inr r
                ∧ instances reg !! r = Some (mkContract (converterBinding e)))
    ∧ (∃ r, TagId_value "MARSHAL_TYPE_GENERIC_4" = Some 4%Z
            ∧ resolve reg 4 = inr r
            ∧ instances reg !! r = Some (mkContract "CopyMarshaler4")).
Proof.
  intros Himpl. destruct (construct_total _ _ Himpl) as [reg Hc].
  exists reg. split; [done|].
  destruct (construct_spec _ _ _ Hc) as [Hactive _].
  assert (∀ i e, TagSpace !! i = Some e → FeatureGate cfg e →
            ∃ r, resolve reg (Z.of_nat i) = inr r
                 ∧ instances reg !! r = Some (mkContract (converterBinding e)))
    as Hresolve.
  { intros i e Hi Hgate. destruct (Hactive i e Hi Hgate) as (r & Hslot & Hinst).
    exists r. split; [|done]. unfold resolve.
    apply lookup_lt_Some in Hi.
    rewrite decide_True by lia. by rewrite Nat2Z.id, Hslot. }
  split.
  - intros e (i & Hi & Hv)%TagId_value_elem_of Hgate.
    destruct (Hresolve i e Hi Hgate) as (r & ? & ?). by exists (Z.of_nat i), r.
  - destruct (Hresolve 4%nat (mkTagEntry "MARSHAL_TYPE_GENERIC_4" "CopyMarshaler4" []))
      as (r & ? & ?); [done|done|].
    exists r. split; [|done]. by vm_compute.
Qed.

(** C1 at work: the build with no flag defined and every class present. *)
Lemma resolve_active_witness :
  ∃ reg, construct (λ _, true) ∅ = inr reg
    ∧ ∃ r, resolve reg 4 = inr r
           ∧ instances reg !! r = Some (mkContract "CopyMarshaler4").
Proof.
  destruct (resolve_active (λ _, true) ∅) as (reg & Hc & _ & r & _ & Hr & Hi).
  - done.
  - exists reg. split; [exact Hc|]. exists r. split; [exact Hr | exact Hi].
Defined.

(** C3.  In a constructed registry, [resolve] on the value of a declared tag
    whose guard is false returns [FeatureNotSupported], which is not
    [UnsupportedMarshalKind]; so does the tag bound to InterfaceMarshaler
    when FEATURE_COMINTEROP is not defined. *)
Theorem resolve_excluded (implemented : string → bool) (cfg : Config)
    (reg : MarshalerRegistry) :
  construct implemented cfg = inr reg →
  (∀ e, e ∈ TagSpace → ¬ FeatureGate cfg e →
     ∃ v, TagId_value (tag e) = Some v
          ∧ resolve reg v = inl FeatureNotSupported)
  ∧ ("FEATURE_COMINTEROP" ∉ cfg →
     ∃ mtype v, tag_bound_to "InterfaceMarshaler" = Some mtype
                ∧ TagId_value mtype = Some v
                ∧ resolve reg v = inl FeatureNotSupported)
  ∧ FeatureNotSupported ≠ UnsupportedMarshalKind.
Proof.
  intros Hc. destruct (construct_spec _ _ _ Hc) as [_ Hexcluded].
  assert (∀ e, e ∈ TagSpace → ¬ FeatureGate cfg e →
            ∃ v, TagId_value (tag e) = Some v
                 ∧ resolve reg v = inl FeatureNotSupported) as Hall.
  { intros e (i & Hi & Hv)%TagId_value_elem_of Hgate.
    exists (Z.of_nat i). split; [done|]. unfold resolve.
    pose proof (lookup_lt_Some _ _ _ Hi).
    rewrite decide_True by lia.
    by rewrite Nat2Z.id, (Hexcluded i e Hi Hgate). }
  split_and!; [done| |done].
  intros Hcom.
  destruct (Hall (mkTagEntry "MARSHAL_TYPE_INTERFACE" "InterfaceMarshaler"
                             ["FEATURE_COMINTEROP"])) as (v & Hv & Hr).
  - apply (bool_decide_unpack _). by vm_compute.
  - rewrite FeatureGate_spec. intros Hgate. apply Hcom, Hgate. simpl. left.
  - by exists "MARSHAL_TYPE_INTERFACE", v.
Qed.

(** C3 at work: the build with no flag defined. *)
Lemma resolve_excluded_witness :
  ∃ reg, construct (λ _, true) ∅ = inr reg
    ∧ ∃ v, TagId_value "MARSHAL_TYPE_INTERFACE" = Some v
           ∧ resolve reg v = inl FeatureNotSupported.
Proof.
  destruct (construct (λ _, true) ∅) as [err|reg] eqn:Hc.
  - by vm_compute in Hc.
  - exists reg. split; [reflexivity|].
    destruct (resolve_excluded (λ _, true) ∅ reg Hc) as (_ & Hinterface & _).
    destruct Hinterface as (mtype & v & Hbound & Hv & Hr).
    + apply not_elem_of_empty.
    + injection Hbound as <-. exists v. split; [exact Hv | exact Hr].
Defined.

(** C4.  A value that is the value of no declared tag resolves to
    [UnsupportedMarshalKind], whatever the registry holds; -1 and the first
    value past the table are such values. *)
Theorem resolve_undeclared (reg : MarshalerRegistry) (v : Z) :
  (∀ mtype, TagId_value mtype ≠ Some v) →
  resolve reg v = inl UnsupportedMarshalKind
  ∧ resolve reg (-1) = inl UnsupportedMarshalKind
  ∧ resolve reg (Z.of_nat (length TagSpace)) = inl UnsupportedMarshalKind.
Proof.
  intros Hundeclared. split; [|done].
  unfold resolve. case_decide as Hrange; [|done].
  exfalso.
  destruct (lookup_lt_is_Some_2 TagSpace (Z.to_nat v)) as [e He]; [lia|].
  apply (Hundeclared (tag e)).
  rewrite (TagId_value_lookup _ _ He). f_equal. lia.
Qed.

(** Negative values and values from the length of the table on are the
    value of no declared tag. *)
Lemma TagId_value_range (mtype : string) (v : Z) :
  TagId_value mtype = Some v → (0 ≤ v < Z.of_nat (length TagSpace))%Z.
Proof.
  unfold TagId_value. intros Hv.
  destruct (list_find _ TagSpace) as [[i e]|] eqn:Hfind; [|done].
  injection Hv as <-.
  apply list_find_Some in Hfind as [Hi%lookup_lt_Some _]. lia.
Qed.

(** C4 at work: the value -1 against the registry of the build with no flag
    defined. *)
Lemma resolve_undeclared_witness :
  ∃ reg, construct (λ _, true) ∅ = inr reg
    ∧ resolve reg (-1) = inl UnsupportedMarshalKind.
Proof.
  destruct (construct (λ _, true) ∅) as [err|reg] eqn:Hc.
  - by vm_compute in Hc.
  - exists reg. split; [reflexivity|].
    apply (resolve_undeclared reg (-1)).
    intros mtype Hv. apply TagId_value_range in Hv. lia.
Defined.




(** ** The two flags decide the build *)

Lemma TagSpace_flags (e : TagEntry) :
  e ∈ TagSpace →
  Forall (λ flag, flag = "FEATURE_COMINTEROP" ∨ flag = "TARGET_WINDOWS")
         (requiredFeatures e).
Proof.
  revert e. apply Forall_forall, (bool_decide_unpack _). by vm_compute.
Qed.

Lemma TagSpace_one_flag (e : TagEntry) :
  e ∈ TagSpace → requiredFeatures e = [] ∨ ∃ flag, requiredFeatures e = [flag].
Proof.
  assert (Forall (λ e, (length (requiredFeatures e) ≤ 1)%nat) TagSpace) as Hall
    by (apply (bool_decide_unpack _); by vm_compute).
  rewrite Forall_forall in Hall. intros He%Hall.
  destruct (requiredFeatures e) as [|flag [|??]]; simpl in He; [by left| |lia].
  right. by exists flag.
Qed.

Lemma FeatureGate_agree (cfg1 cfg2 : Config) (e : TagEntry) :
  e ∈ TagSpace →
  ("FEATURE_COMINTEROP" ∈ cfg1 ↔ "FEATURE_COMINTEROP" ∈ cfg2) →
  ("TARGET_WINDOWS" ∈ cfg1 ↔ "TARGET_WINDOWS" ∈ cfg2) →
  FeatureGate cfg1 e ↔ FeatureGate cfg2 e.
Proof.
  intros Hflags%TagSpace_flags Hcom Hwin. rewrite Forall_forall in Hflags.
  rewrite !FeatureGate_spec.
  split; intros Hgate flag Hin; pose proof (Hgate flag Hin) as Hdef;
    destruct (Hflags flag Hin); subst flag;
    by (apply Hcom || apply Hwin).
Qed.

Lemma preprocess_file_agree (cfg1 cfg2 : Config) :
  ("FEATURE_COMINTEROP" ∈ cfg1 ↔ "FEATURE_COMINTEROP" ∈ cfg2) →
  ("TARGET_WINDOWS" ∈ cfg1 ↔ "TARGET_WINDOWS" ∈ cfg2) →
  preprocess_file cfg1 mtypes_h = preprocess_file cfg2 mtypes_h.
Proof.
  intros Hcom Hwin. rewrite !preprocess_file_active. unfold active. f_equal.
  apply filter_ext_elem_of. intros e He. by apply FeatureGate_agree.
Qed.

Lemma elem_of_two_flags (com win : bool) :
  ("FEATURE_COMINTEROP" ∈ two_flags com win ↔ com = true)
  ∧ ("TARGET_WINDOWS" ∈ two_flags com win ↔ win = true).
Proof.
  unfold two_flags. rewrite !elem_of_union.
  destruct com, win; rewrite ?elem_of_singleton, ?elem_of_empty;
    intuition congruence.
Qed.

Lemma preprocess_file_two_flags (cfg : Config) :
  preprocess_file cfg mtypes_h
  = preprocess_file
      (two_flags (defined cfg "FEATURE_COMINTEROP") (defined cfg "TARGET_WINDOWS"))
      mtypes_h.
Proof.
  destruct (elem_of_two_flags (defined cfg "FEATURE_COMINTEROP")
                              (defined cfg "TARGET_WINDOWS")) as [Hcom Hwin].
  apply preprocess_file_agree.
  - by rewrite Hcom, defined_spec.
  - by rewrite Hwin, defined_spec.
Qed.

(** Proves a statement about the rows of every build from the four builds
    the two flags allow. *)
Ltac by_two_flags cfg :=
  rewrite ?(preprocess_file_two_flags cfg);
  destruct (defined cfg "FEATURE_COMINTEROP"), (defined cfg "TARGET_WINDOWS").

(** The row of a declared entry survives preprocessing exactly when the
    gate of the entry holds. *)
Lemma row_survives (cfg : Config) (e : TagEntry) :
  e ∈ TagSpace →
  row_of e ∈ preprocess_file cfg mtypes_h ↔ FeatureGate cfg e.
Proof.
  intros He. rewrite preprocess_file_active, list_elem_of_fmap. split.
  - intros (e' & Hrow & [Hgate He']%elem_of_active).
    assert (e = e') as ->; [|done].
    apply (NoDup_tag_inj TagSpace); auto using TagSpace_NoDup.
    unfold row_of in Hrow. congruence.
  - intros Hgate. exists e. split; [done|]. by apply elem_of_active.
Qed.

(** X1.  Two builds that define no macro named like a tag or a class of
    the table leave the same rows of the header exactly when they agree on
    FEATURE_COMINTEROP and on TARGET_WINDOWS: no other such macro has a say,
    and each of the two flags changes the rows. *)
Theorem rows_determined_by_two_flags (cfg1 cfg2 : Config) :
  rows_as_written cfg1 → rows_as_written cfg2 →
  preprocess_file cfg1 mtypes_h = preprocess_file cfg2 mtypes_h
  ↔ ("FEATURE_COMINTEROP" ∈ cfg1 ↔ "FEATURE_COMINTEROP" ∈ cfg2)
    ∧ ("TARGET_WINDOWS" ∈ cfg1 ↔ "TARGET_WINDOWS" ∈ cfg2).
Proof.
  intros _ _.
  split; [|intros [??]; by apply preprocess_file_agree].
  intros Hrows.
  assert (∀ cfg flag e, e ∈ TagSpace → requiredFeatures e = [flag] →
            flag ∈ cfg ↔ row_of e ∈ preprocess_file cfg mtypes_h) as Hflag.
  { intros cfg flag e He Hreq. rewrite (row_survives cfg e He), FeatureGate_spec.
    rewrite Hreq. setoid_rewrite list_elem_of_singleton. naive_solver. }
  split.
  - rewrite !(Hflag _ _ (mkTagEntry "MARSHAL_TYPE_VTBOOL" "VtBoolMarshaler"
                                    ["FEATURE_COMINTEROP"])), Hrows;
      [done|..]; (by apply (bool_decide_unpack _); vm_compute) || done.
  - rewrite !(Hflag _ _ (mkTagEntry "MARSHAL_TYPE_BLITTABLEVALUECLASSWITHCOPYCTOR"
                                    "BlittableValueClassWithCopyCtorMarshaler"
                                    ["TARGET_WINDOWS"])), Hrows;
      [done|..]; (by apply (bool_decide_unpack _); vm_compute) || done.
Qed.

(** X1 at work: a build that also defines DEBUG keeps the rows of the build
    with FEATURE_COMINTEROP alone. *)
Lemma rows_determined_by_two_flags_witness :
  preprocess_file {["FEATURE_COMINTEROP"; "DEBUG"]} mtypes_h
  = preprocess_file {["FEATURE_COMINTEROP"]} mtypes_h.
Proof.
  apply (rows_determined_by_two_flags
           {["FEATURE_COMINTEROP"; "DEBUG"]} {["FEATURE_COMINTEROP"]}).
  - intros e. revert e. apply Forall_forall, (bool_decide_unpack _). by vm_compute.
  - intros e. revert e. apply Forall_forall, (bool_decide_unpack _). by vm_compute.
  - apply (bool_decide_unpack _). by vm_compute.
Defined.

(** X2.  The number of rows a build keeps: the 49 unguarded rows, seven more
    with FEATURE_COMINTEROP, one more with TARGET_WINDOWS. *)
Theorem rows_count (cfg : Config) :
  length (preprocess_file cfg mtypes_h)
  = (49 + (if defined cfg "FEATURE_COMINTEROP" then 7 else 0)
        + (if defined cfg "TARGET_WINDOWS" then 1 else 0))%nat.
Proof. by_two_flags cfg; by vm_compute. Qed.

(** X3.  A row is kept by a build that defines the macros of two builds
    exactly when one of the two keeps it, and by a build that defines only
    their common macros exactly when both keep it. *)
Theorem rows_union_intersection (cfg1 cfg2 : Config) (r : string * string) :
  (r ∈ preprocess_file (cfg1 ∪ cfg2) mtypes_h
   ↔ r ∈ preprocess_file cfg1 mtypes_h ∨ r ∈ preprocess_file cfg2 mtypes_h)
  ∧ (r ∈ preprocess_file (cfg1 ∩ cfg2) mtypes_h
     ↔ r ∈ preprocess_file cfg1 mtypes_h ∧ r ∈ preprocess_file cfg2 mtypes_h).
Proof.
  assert (∀ e, e ∈ TagSpace →
            (FeatureGate (cfg1 ∪ cfg2) e ↔ FeatureGate cfg1 e ∨ FeatureGate cfg2 e)
            ∧ (FeatureGate (cfg1 ∩ cfg2) e ↔ FeatureGate cfg1 e ∧ FeatureGate cfg2 e))
    as Hgate.
  { intros e He. rewrite !FeatureGate_spec.
    destruct (TagSpace_one_flag e He) as [-> | [flag ->]].
    - setoid_rewrite elem_of_nil. naive_solver.
    - assert (∀ cfg : Config, (∀ f, f ∈ [flag] → f ∈ cfg) ↔ flag ∈ cfg) as Hone.
      { intros cfg. setoid_rewrite list_elem_of_singleton. naive_solver. }
      by rewrite !Hone, elem_of_union, elem_of_intersection. }
  assert (∀ cfg, r ∈ preprocess_file cfg mtypes_h
                 ↔ ∃ e, e ∈ TagSpace ∧ row_of e = r ∧ FeatureGate cfg e) as Hrow.
  { intros cfg. rewrite preprocess_file_active, list_elem_of_fmap. split.
    - intros (e & -> & [??]%elem_of_active). by exists e.
    - intros (e & ? & <- & ?). exists e. split; [done|]. by apply elem_of_active. }
  rewrite !Hrow. split.
  - split.
    + intros (e & He & Hr & [?|?]%(Hgate e He)); [left|right]; by exists e.
    + intros [(e & He & Hr & ?)|(e & He & Hr & ?)]; exists e;
        by rewrite (proj1 (Hgate e He)); auto.
  - split.
    + intros (e & He & Hr & [??]%(Hgate e He)). split; by exists e.
    + intros [(e & He & Hr & ?) (e' & He' & Hr' & ?)]. exists e.
      assert (e' = e) as ->.
      { apply (NoDup_tag_inj TagSpace); auto using TagSpace_NoDup.
        unfold row_of in *. congruence. }
      by rewrite (proj2 (Hgate e He)).
Qed.

(** X4.  No class is bound twice: in every build the classes of the kept
    rows are pairwise different, and a class that two builds bind is bound
    to the same tag in both. *)
Theorem classes_bound_once (cfg1 cfg2 : Config) :
  NoDup (preprocess_file cfg1 mtypes_h).*2
  ∧ ∀ mtype1 mtype2 mclass,
      (mtype1, mclass) ∈ preprocess_file cfg1 mtypes_h →
      (mtype2, mclass) ∈ preprocess_file cfg2 mtypes_h → mtype1 = mtype2.
Proof.
  assert (NoDup (converterBinding <$> TagSpace)) as Hnd
    by (apply (bool_decide_unpack _); by vm_compute).
  split.
  - rewrite preprocess_file_active, <- list_fmap_compose.
    eapply sublist_NoDup; [exact Hnd|]. apply fmap_sublist, active_sublist.
  - intros mtype1 mtype2 mclass.
    rewrite !preprocess_file_active, !list_elem_of_fmap.
    intros (e1 & Hr1 & [_ He1]%elem_of_active) (e2 & Hr2 & [_ He2]%elem_of_active).
    unfold row_of in *. simplify_eq.
    apply list_elem_of_lookup in He1 as [i Hi], He2 as [j Hj].
    assert (i = j) as ->; [|congruence].
    apply (NoDup_lookup _ i j (converterBinding e1) Hnd).
    + by rewrite list_lookup_fmap, Hi.
    + rewrite list_lookup_fmap, Hj. simpl. congruence.
Qed.

(** X5.  The first nine rows, MARSHAL_TYPE_GENERIC_1 to MARSHAL_TYPE_CBOOL,
    are the first nine rows of every build, and no longer prefix is shared
    by all builds: the tenth row is MARSHAL_TYPE_VTBOOL with
    FEATURE_COMINTEROP and MARSHAL_TYPE_ANSICHAR without. *)
Theorem common_prefix_of_builds (cfg : Config) :
  take 9 (preprocess_file cfg mtypes_h) = take 9 (row_of <$> TagSpace)
  ∧ preprocess_file cfg mtypes_h !! 9%nat
    = Some (if defined cfg "FEATURE_COMINTEROP"
            then ("MARSHAL_TYPE_VTBOOL", "VtBoolMarshaler")
            else ("MARSHAL_TYPE_ANSICHAR", "AnsiCharMarshaler")).
Proof. by_two_flags cfg; by vm_compute. Qed.

(** ** Values and positions *)

Lemma generated_enum_NoDup (cfg : Config) : NoDup (generated_enum cfg).
Proof. rewrite generated_enum_active. apply active_NoDup. Qed.

(** The tag of the row at an index has that index as value. *)
Lemma MarshalType_value_row (cfg : Config) (v : nat) (mtype mclass : string) :
  preprocess_file cfg mtypes_h !! v = Some (mtype, mclass) →
  MarshalType_value cfg mtype = Some v.
Proof.
  intros Hrow.
  assert (generated_enum cfg !! v = Some mtype) as Hv.
  { unfold generated_enum. by rewrite list_lookup_fmap, Hrow. }
  unfold MarshalType_value.
  assert (list_find (λ t, t = mtype) (generated_enum cfg) = Some (v, mtype))
    as ->; [|done].
  apply list_find_Some. split_and!; [done|done|].
  intros j t Hj Hlt ->.
  pose proof (NoDup_lookup _ _ _ _ (generated_enum_NoDup cfg) Hj Hv). lia.
Qed.

(** X6.  The value of an enumerator is the index of its row in the table
    generated from the same header for the same build, and the tag found at
    an index has that index as value. *)
Theorem value_indexes_row (cfg : Config) (mtype : string) (v : nat) :
  MarshalType_value cfg mtype = Some v
  ↔ ∃ mclass, generated_bindings cfg !! v = Some (mtype, mclass).
Proof.
  split; [|intros [mclass Hrow]; by apply (MarshalType_value_row cfg v mtype mclass)].
  unfold MarshalType_value, generated_enum, generated_bindings.
  destruct (list_find _ _) as [[i t]|] eqn:Hfind; [|done].
  intros [= ->]. apply list_find_Some in Hfind as (Hv & -> & _).
  rewrite list_lookup_fmap in Hv.
  destruct (preprocess_file cfg mtypes_h !! v) as [[t c]|]; [|done].
  injection Hv as ->. by exists c.
Qed.

(** Among the entries before a position, strictly more pass a test before a
    later position when the entry at the earlier one passes it. *)
Lemma filter_take_length_lt {A} (P : A → Prop) `{!∀ x, Decision (P x)}
    (l : list A) (i j : nat) (x : A) :
  l !! i = Some x → P x → (i < j)%nat →
  (length (filter P (take i l)) < length (filter P (take j l)))%nat.
Proof.
  intros Hi HP Hlt.
  pose proof (lookup_lt_Some _ _ _ Hi) as Hlen.
  rewrite <- (take_drop_middle l i x Hi) at 2.
  rewrite take_app_ge by (rewrite length_take; lia).
  rewrite length_take, Nat.min_l by lia.
  replace (j - i)%nat with (S (j - S i)) by lia. simpl.
  rewrite filter_app, filter_cons_True, length_app by done. simpl. lia.
Qed.

Lemma MarshalType_value_declared (cfg : Config) (mtype : string) (v : nat) :
  MarshalType_value cfg mtype = Some v →
  ∃ i e, TagSpace !! i = Some e ∧ tag e = mtype ∧ FeatureGate cfg e
         ∧ v = length (filter (λ e', FeatureGate cfg e') (take i TagSpace)).
Proof.
  intros Hv.
  assert (mtype ∈ generated_enum cfg) as Hin.
  { unfold MarshalType_value in Hv.
    destruct (list_find _ _) as [[k t]|] eqn:Hfind; [|done].
    apply list_find_Some in Hfind as (Hk & -> & _).
    by eapply list_elem_of_lookup_2. }
  rewrite generated_enum_active in Hin.
  apply list_elem_of_fmap in Hin as (e & -> & [Hgate He]%elem_of_active).
  apply list_elem_of_lookup in He as [i Hi].
  exists i, e. split_and!; [done..|].
  rewrite (MarshalType_value_rank cfg i e Hi Hgate) in Hv. congruence.
Qed.

Lemma MarshalType_value_lt (cfg : Config) (i j : nat) (ei ej : TagEntry)
    (vi vj : nat) :
  TagSpace !! i = Some ei → TagSpace !! j = Some ej →
  MarshalType_value cfg (tag ei) = Some vi →
  MarshalType_value cfg (tag ej) = Some vj →
  (vi < vj)%nat ↔ (i < j)%nat.
Proof.
  intros Hi Hj Hvi Hvj.
  assert (∀ k e v, TagSpace !! k = Some e →
            MarshalType_value cfg (tag e) = Some v →
            FeatureGate cfg e
            ∧ v = length (filter (λ e', FeatureGate cfg e') (take k TagSpace)))
    as Hrank.
  { intros k e v Hk Hv.
    destruct (MarshalType_value_declared _ _ _ Hv) as (k' & e' & Hk' & Htag & ? & ?).
    destruct (decide (k' = k)) as [->|Hne]; [by simplify_eq|].
    by destruct (TagSpace_tags_distinct k' k e' e Hk' Hk Hne). }
  destruct (Hrank _ _ _ Hi Hvi) as [Hgi ->], (Hrank _ _ _ Hj Hvj) as [Hgj ->].
  split.
  - intros Hlt. destruct (decide (i < j)%nat) as [|Hge]; [done|].
    destruct (decide (i = j)) as [->|]; [lia|].
    pose proof (filter_take_length_lt (λ e', FeatureGate cfg e')
                  TagSpace j i ej Hj Hgj). lia.
  - by apply (filter_take_length_lt _ TagSpace i j ei).
Qed.

Lemma MarshalType_value_order (cfg1 cfg2 : Config) (s t : string)
    (s1 t1 s2 t2 : nat) :
  MarshalType_value cfg1 s = Some s1 → MarshalType_value cfg1 t = Some t1 →
  MarshalType_value cfg2 s = Some s2 → MarshalType_value cfg2 t = Some t2 →
  (s1 < t1)%nat ↔ (s2 < t2)%nat.
Proof.
  intros Hs1 Ht1 Hs2 Ht2.
  destruct (MarshalType_value_declared _ _ _ Hs1) as (i & ei & Hi & <- & _).
  destruct (MarshalType_value_declared _ _ _ Ht1) as (j & ej & Hj & <- & _).
  rewrite (MarshalType_value_lt cfg1 i j ei ej s1 t1 Hi Hj Hs1 Ht1).
  by rewrite (MarshalType_value_lt cfg2 i j ei ej s2 t2 Hi Hj Hs2 Ht2).
Qed.

(** X7.  Conditional compilation never reorders: of two rows that two
    builds both keep, the one that comes first in one build comes first in
    the other. *)
Theorem row_order_preserved (cfg1 cfg2 : Config) (r r' : string * string)
    (a1 b1 a2 b2 : nat) :
  preprocess_file cfg1 mtypes_h !! a1 = Some r →
  preprocess_file cfg1 mtypes_h !! b1 = Some r' →
  preprocess_file cfg2 mtypes_h !! a2 = Some r →
  preprocess_file cfg2 mtypes_h !! b2 = Some r' →
  (a1 < b1)%nat ↔ (a2 < b2)%nat.
Proof.
  destruct r as [s c], r' as [t c']. intros Ha1 Hb1 Ha2 Hb2.
  apply (MarshalType_value_order cfg1 cfg2 s t);
    eauto using MarshalType_value_row.
Qed.

(** X7 at work: the rows of MARSHAL_TYPE_ANSICHAR and MARSHAL_TYPE_SAFEHANDLE,
    at indices 10 and 45 under both flags and 9 and 38 under none. *)
Lemma row_order_preserved_witness : (10 < 45)%nat ↔ (9 < 38)%nat.
Proof.
  apply (row_order_preserved
           {["FEATURE_COMINTEROP"; "TARGET_WINDOWS"]} ∅
           ("MARSHAL_TYPE_ANSICHAR", "AnsiCharMarshaler")
           ("MARSHAL_TYPE_SAFEHANDLE", "SafeHandleMarshaler")); by vm_compute.
Defined.

Lemma FeatureGate_two_flags (cfg : Config) (e : TagEntry) :
  e ∈ TagSpace →
  FeatureGate cfg e
  ↔ FeatureGate (two_flags (defined cfg "FEATURE_COMINTEROP")
                           (defined cfg "TARGET_WINDOWS")) e.
Proof.
  intros He.
  destruct (elem_of_two_flags (defined cfg "FEATURE_COMINTEROP")
                              (defined cfg "TARGET_WINDOWS")) as [Hcom Hwin].
  apply FeatureGate_agree; [done|..].
  - by rewrite Hcom, defined_spec.
  - by rewrite Hwin, defined_spec.
Qed.

(** No build leaves out more than the eight guarded rows. *)
Lemma excluded_at_most_eight (cfg : Config) :
  (length (filter (λ e, ¬ FeatureGate cfg e) TagSpace) ≤ 8)%nat.
Proof.
  rewrite (filter_ext_elem_of _
             (λ e, ¬ FeatureGate
                      (two_flags (defined cfg "FEATURE_COMINTEROP")
                                 (defined cfg "TARGET_WINDOWS")) e)).
  - destruct (defined cfg "FEATURE_COMINTEROP"), (defined cfg "TARGET_WINDOWS");
      vm_compute; lia.
  - intros e He. by rewrite (FeatureGate_two_flags cfg e He).
Qed.

Lemma MarshalType_value_within_eight (cfg : Config) (i : nat) (e : TagEntry)
    (v : nat) :
  TagSpace !! i = Some e → MarshalType_value cfg (tag e) = Some v →
  (v ≤ i ≤ v + 8)%nat.
Proof.
  intros Hi Hv.
  destruct (MarshalType_value_declared _ _ _ Hv) as (i' & e' & Hi' & Htag & Hgate & ->).
  assert (i' = i) as ->.
  { destruct (decide (i' = i)) as [|Hne]; [done|].
    by destruct (TagSpace_tags_distinct i' i e' e Hi' Hi Hne). }
  pose proof (lookup_lt_Some _ _ _ Hi) as Hlen.
  set (P := λ e', Is_true (FeatureGate cfg e')).
  pose proof (Permutation_length (filter_app_complement P (take i TagSpace))) as Hsplit.
  rewrite length_app, length_take, Nat.min_l in Hsplit by lia.
  assert (length (filter (λ x, ¬ P x) (take i TagSpace))
          ≤ length (filter (λ x, ¬ P x) TagSpace))%nat as Hpart.
  { rewrite <- (take_drop i TagSpace) at 2. rewrite filter_app, length_app. lia. }
  pose proof (excluded_at_most_eight cfg) as Height.
  change (length (filter (λ x, ¬ P x) TagSpace) ≤ 8)%nat in Height.
  lia.
Qed.

(** X8.  The index of a row in a build never exceeds the position of the
    row in the header and falls short of it by at most eight, the number of
    guarded rows. *)
Theorem row_within_eight_of_position (cfg : Config) (i : nat) (e : TagEntry)
    (v : nat) :
  TagSpace !! i = Some e →
  preprocess_file cfg mtypes_h !! v = Some (row_of e) →
  (v ≤ i ≤ v + 8)%nat.
Proof.
  intros Hi Hv. apply (MarshalType_value_within_eight cfg i e v Hi).
  by apply (MarshalType_value_row cfg v (tag e) (converterBinding e)).
Qed.

(** X8 at work: MARSHAL_TYPE_POINTER, the last row, at position 56 of the
    header, is at index 48 when no flag is defined. *)
Lemma row_within_eight_of_position_witness : (48 ≤ 56 ≤ 48 + 8)%nat.
Proof.
  apply (row_within_eight_of_position ∅ 56
           (mkTagEntry "MARSHAL_TYPE_POINTER" "PointerMarshaler" [])).
  - reflexivity.
  - by vm_compute.
Defined.

(** ** Including the header *)

(** Whether [DEFINE_MARSHALER_TYPE] is defined has no say in which rows the
    header leaves: no guard names it. *)
Lemma preprocess_file_macro (cfg : Config) :
  preprocess_file (cfg ∖ {["DEFINE_MARSHALER_TYPE"]}) mtypes_h
  = preprocess_file cfg mtypes_h
  ∧ preprocess_file ({["DEFINE_MARSHALER_TYPE"]} ∪ cfg) mtypes_h
    = preprocess_file cfg mtypes_h.
Proof.
  split; apply preprocess_file_agree;
    rewrite ?elem_of_difference, ?elem_of_union, !elem_of_singleton;
    intuition congruence.
Qed.

(** X9.  Including the header uses up the macro: afterwards
    [DEFINE_MARSHALER_TYPE] is not defined and every other macro is as it
    was, so a second inclusion without a new definition expands nothing and
    leaves the invocations of the same rows as written. *)
Theorem include_consumes_macro {A} (body body' : string → string → A)
    (cfg : Config) :
  ("DEFINE_MARSHALER_TYPE" ∉ (include_mtypes_h body cfg).2)
  ∧ (∀ m, m ≠ "DEFINE_MARSHALER_TYPE" →
       m ∈ (include_mtypes_h body cfg).2 ↔ m ∈ cfg)
  ∧ (include_mtypes_h body' (include_mtypes_h body cfg).2).1
    = (λ r, Invocation r.1 r.2) <$> preprocess_file cfg mtypes_h
  ∧ (include_mtypes_h body' (include_mtypes_h body cfg).2).2
    = (include_mtypes_h body cfg).2.
Proof.
  unfold include_mtypes_h; cbn [fst snd].
  assert ("DEFINE_MARSHALER_TYPE" ∉ cfg ∖ {["DEFINE_MARSHALER_TYPE"]}) as Hgone.
  { rewrite elem_of_difference, elem_of_singleton. tauto. }
  split_and!.
  - done.
  - intros m Hm. rewrite elem_of_difference, elem_of_singleton. tauto.
  - rewrite (proj1 (preprocess_file_macro cfg)).
    unfold defined. by rewrite bool_decide_eq_false_2.
  - apply set_eq. intros m.
    rewrite !elem_of_difference, !elem_of_singleton. tauto.
Qed.
